(** * 2DMotionPointRobot: the point-robot planning driver

    A shallow embedding of [2DMotionPointRobot.py]: the state propagator and
    the validity checker handed to the planning library, the grid enumeration
    of start/goal pairs, and the [plan] driver.

    Numbers are IEEE binary64 values (Python [float], [numpy.float64], C++
    [double]), embedded as Rocq's primitive floats, so every arithmetic step
    rounds as it does in the program.  State and control objects live in a
    heap addressed by references, because [propagate] writes its result into
    an object it receives; a call ends by returning or by raising, and the
    heap is kept either way. *)

From Stdlib Require Import Floats List Bool Arith ZArith Lia.
Import ListNotations.

Local Open Scope float_scope.
#[local] Set Warnings "-inexact-float".

(** * Part I: the model *)

(** ** The math library

    [math.sin] and [math.cos] wrap the C library's [sin] and [cos].  IEEE 754
    does not fix the values of those, so the model is parametric in them and
    keeps what C (Annex F) does fix: a finite argument has a finite result,
    an infinite argument has the result NaN. *)

Class Libm := {
  sin : float -> float;
  cos : float -> float;
  sin_finite : forall x, is_finite x = true -> is_finite (sin x) = true;
  cos_finite : forall x, is_finite x = true -> is_finite (cos x) = true;
  sin_infinite : forall x, is_infinity x = true -> is_nan (sin x) = true;
  cos_infinite : forall x, is_infinity x = true -> is_nan (cos x) = true
}.

(** The interpreter's wrapper of a C function of one argument that cannot
    overflow: a NaN result from an argument that is not NaN, and an infinite
    result from a finite argument, raise [ValueError]. *)
Definition math_1 (func : float -> float) (x : float) : option float :=
  let r := func x in
  if is_nan r && negb (is_nan x) then None
  else if is_infinity r && is_finite x then None
  else Some r.

Definition math_sin {M : Libm} (x : float) : option float := math_1 sin x.
Definition math_cos {M : Libm} (x : float) : option float := math_1 cos x.

(** A polynomial instance, exact at zero ([cos 0 = 1], [sin 0 = 0], as for
    every math library); it lets the model run on concrete inputs. *)
Definition taylor_sin (x : float) : float :=
  let x2 := x * x in
  x * (1 - x2 / 6 * (1 - x2 / 20 * (1 - x2 / 42))).

Definition taylor_cos (x : float) : float :=
  let x2 := x * x in
  1 - x2 / 2 * (1 - x2 / 12 * (1 - x2 / 30)).

(** [f] on finite arguments, NaN on the others; where the polynomial leaves
    the finite range its value is replaced by 0. *)
Definition on_finite (f : float -> float) (x : float) : float :=
  if is_finite x
  then (let r := f x in if is_finite r then r else 0)
  else nan.

Lemma on_finite_finite f x : is_finite x = true -> is_finite (on_finite f x) = true.
Proof.
  intros Hx. unfold on_finite. rewrite Hx.
  destruct (is_finite (f x)) eqn:Hr; [exact Hr | reflexivity].
Qed.

Lemma on_finite_infinite f x : is_infinity x = true -> is_nan (on_finite f x) = true.
Proof.
  intros Hx. unfold on_finite, is_finite. rewrite Hx, orb_true_r. reflexivity.
Qed.

Definition taylor_libm : Libm := {|
  sin := on_finite taylor_sin;
  cos := on_finite taylor_cos;
  sin_finite := on_finite_finite taylor_sin;
  cos_finite := on_finite_finite taylor_cos;
  sin_infinite := on_finite_infinite taylor_sin;
  cos_infinite := on_finite_infinite taylor_cos
|}.

(** ** Failure: a Python exception aborts the computation *)

Definition bind {A B : Type} (m : option A) (k : A -> option B) : option B :=
  match m with
  | Some a => k a
  | None => None
  end.

Notation "x <- m ;; k" := (bind m (fun x => k))
  (at level 61, m at next level, right associativity).

(** ** SE(2) states, controls and the heap *)

Record SE2State := mkSE2 {
  getX : float;
  getY : float;
  getYaw : float
}.

Definition setX (v : float) (s : SE2State) : SE2State :=
  mkSE2 v (getY s) (getYaw s).
Definition setY (v : float) (s : SE2State) : SE2State :=
  mkSE2 (getX s) v (getYaw s).
Definition setYaw (v : float) (s : SE2State) : SE2State :=
  mkSE2 (getX s) (getY s) v.

Definition loc := nat.

(** A control is the raw array of values of the control space; indexing is
    unchecked, as in the bindings. *)
Definition Control := nat -> float.

Record Heap := mkHeap {
  states : loc -> SE2State;
  controls : loc -> Control
}.

Arguments states h l%_nat : rename.
Arguments controls h l%_nat i%_nat : rename.

(** [state.setX(v)] and its siblings: an in-place update of the object at [l]. *)
Definition update_state (h : Heap) (l : loc) (f : SE2State -> SE2State) : Heap :=
  mkHeap (fun l' => if Nat.eqb l' l then f (states h l) else states h l')
         (controls h).

(** ** [isStateValid] *)

(** The space information object of the planning library; only its
    [satisfiesBounds] method is used. *)
Record SpaceInformation := {
  satisfiesBounds : SE2State -> bool
}.

Definition isStateValid (spaceInformation : SpaceInformation) (h : Heap) (state : loc)
  : bool :=
  satisfiesBounds spaceInformation (states h state).

(** [partial(isStateValid, ss.getSpaceInformation())], the checker [plan] installs. *)
Definition plan_validity_checker (si : SpaceInformation) : Heap -> loc -> bool :=
  isStateValid si.

(** ** [propagate] *)

(** How a call ends: it returns, or an exception leaves it; either way with
    the heap as the call left it. *)
Inductive Outcome :=
| Returned (h : Heap)
| Raised (h : Heap).

Definition heap_of (o : Outcome) : Heap :=
  match o with
  | Returned h => h
  | Raised h => h
  end.

Section Propagate.
Context {M : Libm}.

(** The three statements run in order on the heap; each reads [start] in the
    heap left by the statement before it, and a [ValueError] of [cos] or
    [sin] ends the call before the write of its statement. *)
Definition propagate (h : Heap) (start control : loc) (duration : float) (state : loc)
  : Outcome :=
  match math_cos (getYaw (states h start)) with
  | None => Raised h
  | Some c =>
    let h1 := update_state h state
      (setX (getX (states h start) + controls h control 0%nat * duration * c)) in
    match math_sin (getYaw (states h1 start)) with
    | None => Raised h1
    | Some s =>
      let h2 := update_state h1 state
        (setY (getY (states h1 start) + controls h1 control 0%nat * duration * s)) in
      Returned (update_state h2 state
        (setYaw (getYaw (states h2 start) + controls h2 control 1%nat * duration)))
    end
  end.

(** The heap after the three writes of a call that does not raise. *)
Definition propagate_writes (h : Heap) (start control : loc) (duration : float)
  (state : loc) : Heap :=
  let h1 := update_state h state
    (setX (getX (states h start)
           + controls h control 0%nat * duration * cos (getYaw (states h start)))) in
  let h2 := update_state h1 state
    (setY (getY (states h1 start)
           + controls h1 control 0%nat * duration * sin (getYaw (states h1 start)))) in
  update_state h2 state
    (setYaw (getYaw (states h2 start) + controls h2 control 1%nat * duration)).

(** One explicit Euler step on values: every update uses the start values. *)
Definition euler_step (s : SE2State) (c : Control) (duration : float) : SE2State :=
  mkSE2 (getX s + c 0%nat * duration * cos (getYaw s))
        (getY s + c 0%nat * duration * sin (getYaw s))
        (getYaw s + c 1%nat * duration).

(** [n] calls chained in place: the first from [start] into [state], every
    further one from [state] into [state]; an exception ends the chain. *)
Fixpoint propagate_steps (n : nat) (h : Heap) (start control : loc) (duration : float)
  (state : loc) : Outcome :=
  match n with
  | O => Returned h
  | S n' =>
    match propagate h start control duration state with
    | Returned h1 => propagate_steps n' h1 state control duration state
    | Raised hr => Raised hr
    end
  end.

(** [n] Euler steps on values; no step can be taken from an infinite yaw. *)
Fixpoint euler_steps (n : nat) (s : SE2State) (c : Control) (duration : float)
  : option SE2State :=
  match n with
  | O => Some s
  | S n' =>
    if is_infinity (getYaw s) then None
    else euler_steps n' (euler_step s c duration) c duration
  end.

End Propagate.

Arguments propagate {M} h (start control)%_nat duration%_float state%_nat.
Arguments propagate_writes {M} h (start control)%_nat duration%_float state%_nat.
Arguments propagate_steps {M} n%_nat h (start control)%_nat duration%_float state%_nat.

(** A two-dimensional control [(v, w)]. *)
Definition control2 (v w : float) : Control :=
  fun i => match i with O => v | _ => w end.

(** A heap whose state objects all hold [s] and whose controls all hold [c]. *)
Definition const_heap (s : SE2State) (c : Control) : Heap :=
  mkHeap (fun _ => s) (fun _ => c).

(** ** Bounds *)

Record RealVectorBounds := mkBounds {
  low : list float;
  high : list float
}.

(** [ob.RealVectorBounds(dim)]: [dim] entries, all zero. *)
Definition newRealVectorBounds (dim : nat) : RealVectorBounds :=
  mkBounds (repeat 0 dim) (repeat 0 dim).

(** [setLow(v)] and [setHigh(v)] fill every dimension. *)
Definition setLow (v : float) (b : RealVectorBounds) : RealVectorBounds :=
  mkBounds (map (fun _ => v) (low b)) (high b).
Definition setHigh (v : float) (b : RealVectorBounds) : RealVectorBounds :=
  mkBounds (low b) (map (fun _ => v) (high b)).

(** [bounds.low[0]] and [bounds.high[0]]; indexing an empty vector fails. *)
Definition low0 (b : RealVectorBounds) : option float := nth_error (low b) 0.
Definition high0 (b : RealVectorBounds) : option float := nth_error (high b) 0.

(** ** [numpy.linspace] *)

(** An integer as a binary64 value (exact below 2^53). *)
Definition float_of_nat (n : nat) : float :=
  of_uint63 (Uint63.of_Z (Z.of_nat n)).

(** [arange(0, num)] as floats. *)
Definition arange (num : nat) : list float := map float_of_nat (seq 0 num).

(** [y[-1] = stop]. *)
Definition set_last (y : list float) (stop : float) : list float :=
  match y with
  | [] => []
  | _ :: _ => removelast y ++ [stop]
  end.

(** [numpy.linspace(start, stop, num)] with the end point included, following
    the library's algorithm: [arange(0, num) * step + start] with
    [step = (stop - start) / (num - 1)], the last entry then overwritten by
    [stop]. *)
Definition linspace (start stop : float) (num : nat) : list float :=
  let div := (num - 1)%nat in
  let delta := stop - start in
  let y := arange num in
  let y :=
    if (0 <? div)%nat then
      let step := delta / float_of_nat div in
      if step =? 0
      then map (fun v => v / float_of_nat div * delta) y
      else map (fun v => v * step) y
    else map (fun v => v * delta) y in
  let y := map (fun v => v + start) y in
  if (1 <? num)%nat then set_last y stop else y.

(** ** The grid enumeration *)

Definition dim : nat := 2.

(** [_rec_all_states]; [depth] is the interpreter's remaining recursion
    depth, and running out of it is the [RecursionError]. *)
Fixpoint _rec_all_states (depth : nat) (state_index grid_marks : nat)
  (bounds : RealVectorBounds) : option (list (list float)) :=
  match depth with
  | O => None
  | S depth' =>
    lo <- low0 bounds ;;
    hi <- high0 bounds ;;
    let s := linspace lo hi grid_marks in
    if (state_index =? dim - 1)%nat then Some (map (fun x => [x]) s)
    else
      next_res <- _rec_all_states depth' (state_index + 1) grid_marks bounds ;;
      Some (flat_map (fun l => map (fun x => x :: l) s) next_res)
  end.

(** The interpreter's default recursion limit. *)
Definition recursion_limit : nat := 1000.

(** [is_free]: [any(np.abs(coordinates) >= bounds.high[0])] rejects. *)
Definition is_free (coordinates : list float) (bounds : RealVectorBounds) : option bool :=
  h <- high0 bounds ;;
  if existsb (fun c => h <=? abs c) coordinates then Some false else Some true.

(** [[s for s in grid_states if is_free(s, bounds)]]. *)
Fixpoint filter_free (grid_states : list (list float)) (bounds : RealVectorBounds)
  : option (list (list float)) :=
  match grid_states with
  | [] => Some []
  | s :: rest =>
    free <- is_free s bounds ;;
    kept <- filter_free rest bounds ;;
    Some (if free then s :: kept else kept)
  end.

Definition StatePair : Type := list float * list float.

(** [[(s1, s2) for s1 in grid_states for s2 in grid_states]]. *)
Definition ordered_pairs (grid_states : list (list float)) : list StatePair :=
  flat_map (fun s1 => map (fun s2 => (s1, s2)) grid_states) grid_states.

(** The free grid states at one resolution, and the body of the loop. *)
Definition free_grid_states (grid_marks : nat) (bounds : RealVectorBounds)
  : option (list (list float)) :=
  grid_states <- _rec_all_states recursion_limit 0 grid_marks bounds ;;
  filter_free grid_states bounds.

Definition pairs_at (grid_marks : nat) (bounds : RealVectorBounds)
  : option (list StatePair) :=
  grid_states <- free_grid_states grid_marks bounds ;;
  Some (ordered_pairs grid_states).

(** The [while] loop of [get_fixed_start_goal_pairs]; [fuel] bounds the
    number of iterations. *)
Fixpoint pairs_loop (fuel : nat) (all_pairs : list StatePair) (grid_marks : nat)
  (bounds : RealVectorBounds) : option (list StatePair) :=
  if (length all_pairs <? 1000)%nat then
    match fuel with
    | O => None
    | S fuel' =>
      all_pairs' <- pairs_at grid_marks bounds ;;
      pairs_loop fuel' all_pairs' (grid_marks + 1) bounds
    end
  else Some all_pairs.

Definition get_fixed_start_goal_pairs (fuel : nat) (bounds : RealVectorBounds)
  : option (list StatePair) :=
  pairs_loop fuel [] 11 bounds.

(** ** The driver *)

Inductive PlannerKind := RRT | EST | KPIECE1 | SyclopEST | SyclopRRT.

(** What [plan] configures on the [SimpleSetup] object. *)
Record SimpleSetup := mkSetup {
  state_bounds : RealVectorBounds;
  control_bounds : RealVectorBounds;
  start_goal : option (SE2State * SE2State * float);
  planner : option PlannerKind;
  propagation_step_size : option float
}.

Definition setStartAndGoalStates (start goal : SE2State) (threshold : float)
  (ss : SimpleSetup) : SimpleSetup :=
  mkSetup (state_bounds ss) (control_bounds ss) (Some (start, goal, threshold))
          (planner ss) (propagation_step_size ss).
Definition setPlanner (p : PlannerKind) (ss : SimpleSetup) : SimpleSetup :=
  mkSetup (state_bounds ss) (control_bounds ss) (start_goal ss)
          (Some p) (propagation_step_size ss).
Definition setPropagationStepSize (d : float) (ss : SimpleSetup) : SimpleSetup :=
  mkSetup (state_bounds ss) (control_bounds ss) (start_goal ss)
          (planner ss) (Some d).

(** What the driver does to the outside: its calls of [ss.solve] (with the
    setup as it stands at the call) and the lines it prints. *)
Inductive Event :=
| PrintBounds (lo hi : float)
| Solve (ss : SimpleSetup) (time : float)
| PrintStartGoal (start goal : SE2State)
| PrintSolutionPath.

(** The variables of [plan] and the events so far. *)
Record PlanVars := mkVars {
  var_start : SE2State;
  var_goal : SE2State;
  var_ss : SimpleSetup;
  events : list Event
}.

(** The [(setup, time)] of every [ss.solve] call in a list of events. *)
Fixpoint solve_calls (es : list Event) : list (SimpleSetup * float) :=
  match es with
  | [] => []
  | Solve ss t :: rest => (ss, t) :: solve_calls rest
  | _ :: rest => solve_calls rest
  end.

Section Driver.

(** The truth value of the status [ss.solve] of the planning library
    returns, which is all [plan] looks at (an exact and an approximate
    solution both count as true); the planner is the library's, randomised and
    run against the clock, so its answer is a parameter of the driver. *)
Variable solve : SimpleSetup -> float -> bool.

(** The body of the [for] loop at index [i]. *)
Definition plan_step (bounds : RealVectorBounds) (i : nat) (sg : StatePair)
  (v : PlanVars) : option PlanVars :=
  let (s, g) := sg in
  if (i =? 100)%nat then
    s0 <- nth_error s 0 ;;
    s1 <- nth_error s 1 ;;
    let start := setYaw 0 (setY s1 (setX s0 (mkSE2 0 0 0))) in
    g0 <- nth_error g 0 ;;
    g1 <- nth_error g 1 ;;
    let goal := setYaw 0 (setY g1 (setX g0 (mkSE2 0 0 0))) in
    lo <- low0 bounds ;;
    hi <- high0 bounds ;;
    let ss := setStartAndGoalStates start goal 0.05 (var_ss v) in
    let ss := setPlanner RRT ss in
    let ss := setPropagationStepSize 0.1 ss in
    let solved := solve ss 20 in
    Some (mkVars start goal ss
            (events v ++ [PrintBounds lo hi; Solve ss 20]
             ++ (if solved then [PrintStartGoal start goal; PrintSolutionPath] else [])))
  else Some v.

(** [for i, (s, g) in enumerate(start_goal_pairs)], from index [i] on. *)
Fixpoint plan_loop (bounds : RealVectorBounds) (i : nat) (pairs : list StatePair)
  (v : PlanVars) : option PlanVars :=
  match pairs with
  | [] => Some v
  | sg :: rest =>
    v' <- plan_step bounds i sg v ;;
    plan_loop bounds (S i) rest v'
  end.

Definition plan_bounds : RealVectorBounds :=
  setHigh 1 (setLow (-1) (newRealVectorBounds 2)).

Definition plan_cbounds : RealVectorBounds :=
  setHigh 0.3 (setLow (-0.3) (newRealVectorBounds 2)).

(** The variables of [plan] when the loop is entered. *)
Definition plan_init : PlanVars :=
  let ss := mkSetup plan_bounds plan_cbounds None None None in
  let start := setYaw 0 (setY 0 (setX (-0.5) (mkSE2 0 0 0))) in
  let goal := setYaw 0 (setY 0.5 (setX 0 (mkSE2 0 0 0))) in
  mkVars start goal ss [].

Definition plan (fuel : nat) : option PlanVars :=
  start_goal_pairs <- get_fixed_start_goal_pairs fuel plan_bounds ;;
  plan_loop plan_bounds 0 start_goal_pairs plan_init.

End Driver.

(** A planner whose status counts as true on every problem. *)
Definition always_solved : SimpleSetup -> float -> bool := fun _ _ => true.

(** The scenario [plan] sets out with: start [(-0.5, 0, 0)], goal
    [(0, 0.5, 0)]. *)
Definition reference_setup : SimpleSetup :=
  mkSetup plan_bounds plan_cbounds
          (Some (mkSE2 (-0.5) 0 0, mkSE2 0 0.5 0, 0.05)) (Some RRT) (Some 0.1).

(** The scenario of the pair at index 100 of the enumeration. *)
Definition pair_100 : StatePair :=
  ([-0.6; -0.8], [-0.6; -0.39999999999999991]).

Definition pair_100_setup : SimpleSetup :=
  mkSetup plan_bounds plan_cbounds
          (Some (mkSE2 (-0.6) (-0.8) 0, mkSE2 (-0.6) (-0.39999999999999991) 0, 0.05))
          (Some RRT) (Some 0.1).

(** Two heaps that agree on nothing but the start values and the control. *)
Definition heap_a : Heap :=
  mkHeap (fun l => match l with O => mkSE2 0.5 (-0.25) 1 | _ => mkSE2 7 7 7 end)
         (fun _ => control2 0.3 (-0.3)).
Definition heap_b : Heap :=
  mkHeap (fun l => match l with 3%nat => mkSE2 0.5 (-0.25) 1 | _ => mkSE2 0 0 9 end)
         (fun c => match c with 2%nat => control2 0.3 (-0.3) | _ => control2 1 1 end).

(** The resolutions [grid_marks .. grid_marks + k - 1] each give fewer than
    1000 pairs. *)
Definition too_few_pairs (bounds : RealVectorBounds) (grid_marks k : nat) : Prop :=
  forall m, (grid_marks <= m < grid_marks + k)%nat ->
    exists p, pairs_at m bounds = Some p /\ (length p < 1000)%nat.

(** ** [MyDecomposition] *)

(** [coord[i] = v] on the coordinate vector handed in by reference; an index
    past its end raises. *)
Definition set_coord (coord : list float) (i : nat) (v : float) : option (list float) :=
  if (i <? length coord)%nat
  then Some (firstn i coord ++ v :: skipn (S i) coord)
  else None.

(** [MyDecomposition.project]: the new contents of [coord]. *)
Definition project (h : Heap) (s : loc) (coord : list float) : option (list float) :=
  coord1 <- set_coord coord 0 (getX (states h s)) ;;
  set_coord coord1 1 (getY (states h s)).

(** The state sampler of the planning library: what [sampleUniform] leaves
    in the state object it is given. *)
Record StateSampler := {
  sampleUniform : SE2State -> SE2State
}.

(** [s.setXY(x, y)]. *)
Definition setXY (x y : float) (s : SE2State) : SE2State := setY y (setX x s).

(** [MyDecomposition.sampleFullState]. *)
Definition sampleFullState (sampler : StateSampler) (h : Heap) (coord : list float)
  (s : loc) : option Heap :=
  let h1 := update_state h s (sampleUniform sampler) in
  c0 <- nth_error coord 0 ;;
  c1 <- nth_error coord 1 ;;
  Some (update_state h1 s (setXY c0 c1)).

(** A sampler that always draws [(7, 8, 9)]. *)
Definition fixed_sampler : StateSampler :=
  {| sampleUniform := fun _ => mkSE2 7 8 9 |}.

(** [cs'] is [cs] with some coordinates replaced by their opposites. *)
Definition mirrored (cs cs' : list float) : Prop :=
  Forall2 (fun c c' => c' = c \/ c' = - c) cs cs'.

(** The pairs [plan] enumerates (the empty list stands for a run that does
    not return). *)
Definition plan_pairs : list StatePair :=
  match get_fixed_start_goal_pairs 1 plan_bounds with
  | Some pairs => pairs
  | None => []
  end.

(** Finite bounds whose width is not a binary64 number. *)
Definition big_bounds : RealVectorBounds :=
  setHigh 1e308 (setLow (-1e308) (newRealVectorBounds 2)).

(** * Part II: properties *)

(** ** The heap *)

Lemma update_state_same h l f : states (update_state h l f) l = f (states h l).
Proof. simpl. now rewrite Nat.eqb_refl. Qed.

Lemma update_state_other h l l' f :
  l' <> l -> states (update_state h l f) l' = states h l'.
Proof. intros Hne. simpl. apply Nat.eqb_neq in Hne. now rewrite Hne. Qed.

Lemma update_state_controls h l f : controls (update_state h l f) = controls h.
Proof. reflexivity. Qed.

(** ** Special values *)

Lemma is_finite_true x :
  is_finite x = true -> is_nan x = false /\ is_infinity x = false.
Proof.
  unfold is_finite. rewrite negb_true_iff, orb_false_iff. auto.
Qed.

Lemma is_infinity_not_nan x : is_infinity x = true -> is_nan x = false.
Proof.
  unfold is_infinity, is_nan. rewrite !FloatAxioms.eqb_spec, abs_spec.
  replace (Prim2SF infinity) with (S754_infinity false) by reflexivity.
  destruct (Prim2SF x) as [s | s | | s m e]; simpl; try discriminate.
  intros _. destruct s; reflexivity.
Qed.

Lemma is_finite_cases x :
  is_infinity x = false -> is_nan x = true \/ is_finite x = true.
Proof.
  intros Hinf. unfold is_finite. rewrite Hinf, orb_false_r.
  destruct (is_nan x); auto.
Qed.

(** ** [math.sin] and [math.cos] *)

(** Of a C function that is finite on finite arguments and NaN on infinite
    ones, the wrapper raises exactly on the infinite arguments. *)
Lemma math_1_spec (func : float -> float) x :
  (forall y, is_finite y = true -> is_finite (func y) = true) ->
  (forall y, is_infinity y = true -> is_nan (func y) = true) ->
  math_1 func x = if is_infinity x then None else Some (func x).
Proof.
  intros Hfin Hinf. unfold math_1. cbv zeta.
  destruct (is_infinity x) eqn:Hx.
  - now rewrite (Hinf x Hx), (is_infinity_not_nan x Hx).
  - destruct (is_finite_cases x Hx) as [Hnan | Hf].
    + rewrite Hnan. unfold is_finite at 1. rewrite Hnan.
      cbn [negb orb andb]. now rewrite !andb_false_r.
    + destruct (is_finite_true _ (Hfin x Hf)) as [Hrn Hri].
      now rewrite Hrn, Hri.
Qed.

(** ** [propagate] *)

Section PropagateFacts.
Context {M : Libm}.

Lemma math_cos_spec x : math_cos x = if is_infinity x then None else Some (cos x).
Proof. apply math_1_spec; [apply cos_finite | apply cos_infinite]. Qed.

Lemma math_sin_spec x : math_sin x = if is_infinity x then None else Some (sin x).
Proof. apply math_1_spec; [apply sin_finite | apply sin_infinite]. Qed.

Lemma getYaw_after_setX h start state v :
  getYaw (states (update_state h state (setX v)) start) = getYaw (states h start).
Proof.
  destruct (Nat.eq_dec start state) as [-> | Hne].
  - now rewrite update_state_same.
  - now rewrite update_state_other.
Qed.

(** A call raises exactly from an infinite start yaw, and then before its
    first write; otherwise it returns after the three writes. *)
Lemma propagate_spec h start control duration state :
  propagate h start control duration state
  = if is_infinity (getYaw (states h start)) then Raised h
    else Returned (propagate_writes h start control duration state).
Proof.
  unfold propagate. rewrite math_cos_spec.
  destruct (is_infinity (getYaw (states h start))) eqn:Hyaw; [reflexivity|].
  cbv zeta. rewrite math_sin_spec, getYaw_after_setX, Hyaw.
  unfold propagate_writes. now rewrite getYaw_after_setX.
Qed.

(** The result object holds the Euler step of the start values, whether or
    not [state] and [start] are the same object: [x] is written first and
    never read again, [yaw] is written last. *)
Lemma propagate_result h start control duration state :
  states (propagate_writes h start control duration state) state
  = euler_step (states h start) (controls h control) duration.
Proof.
  unfold propagate_writes, euler_step.
  rewrite !update_state_same, !update_state_controls.
  destruct (Nat.eq_dec start state) as [-> | Hne].
  - rewrite !update_state_same. reflexivity.
  - rewrite !update_state_other by assumption. reflexivity.
Qed.

Lemma propagate_other h start control duration state l :
  l <> state -> states (propagate_writes h start control duration state) l = states h l.
Proof.
  intros Hne. unfold propagate_writes. now rewrite !update_state_other by assumption.
Qed.

Lemma propagate_heap_other h start control duration state l :
  l <> state ->
  states (heap_of (propagate h start control duration state)) l = states h l.
Proof.
  intros Hne. rewrite propagate_spec.
  destruct (is_infinity _); [reflexivity|]. now apply propagate_other.
Qed.

Lemma propagate_heap_controls h start control duration state :
  controls (heap_of (propagate h start control duration state)) = controls h.
Proof. rewrite propagate_spec. now destruct (is_infinity _). Qed.

(** C1 (amended).  For every heap, start state [(x, y, yaw)] whose yaw is
    not infinite, control [(v, w)] and duration [d], [propagate] returns, and
    the output object then holds [x + v * d * cos yaw], [y + v * d * sin yaw]
    and [yaw + w * d], all three computed from the values the start state
    had on entry; in particular the [x] and [y] updates use the start yaw,
    not the updated one, also when the output object is the start object
    itself.  From an infinite yaw [math.cos] raises [ValueError] and the
    call ends with the heap as it was. *)
Theorem propagate_euler h start control duration state :
  let x := getX (states h start) in
  let y := getY (states h start) in
  let yaw := getYaw (states h start) in
  let v := controls h control 0%nat in
  let w := controls h control 1%nat in
  (is_infinity yaw = false ->
   exists h',
     propagate h start control duration state = Returned h'
     /\ getX (states h' state) = x + v * duration * cos yaw
     /\ getY (states h' state) = y + v * duration * sin yaw
     /\ getYaw (states h' state) = yaw + w * duration)
  /\ (is_infinity yaw = true ->
      propagate h start control duration state = Raised h).
Proof.
  intros x y yaw v w. rewrite propagate_spec. fold yaw. split; intros Hyaw.
  - rewrite Hyaw. eexists. split; [reflexivity|].
    rewrite propagate_result. unfold euler_step. simpl. auto.
  - now rewrite Hyaw.
Qed.

(** C5.  Two calls of [propagate] whose start states hold the same values and
    whose controls and durations are the same end alike: both raise, or both
    return and leave identical successor states, whatever else the two heaps
    hold and whichever objects receive the results. *)
Theorem propagate_deterministic h1 h2 start1 start2 control1 control2 duration out1 out2 :
  states h1 start1 = states h2 start2 ->
  controls h1 control1 0%nat = controls h2 control2 0%nat ->
  controls h1 control1 1%nat = controls h2 control2 1%nat ->
  match propagate h1 start1 control1 duration out1,
        propagate h2 start2 control2 duration out2 with
  | Returned h1', Returned h2' => states h1' out1 = states h2' out2
  | Raised _, Raised _ => True
  | _, _ => False
  end.
Proof.
  intros Hs Hv Hw. rewrite !propagate_spec, Hs.
  destruct (is_infinity (getYaw (states h2 start2))); [exact I|].
  rewrite !propagate_result. unfold euler_step.
  now rewrite Hs, Hv, Hw.
Qed.

(** C6 (amended).  [propagate] writes the output object only: however the
    call ends, every other state object and every control keep their
    contents, and so does the start state whenever it is not the output
    object; a call that raises leaves the whole heap as it was. *)
Theorem propagate_frame h start control duration state :
  let o := propagate h start control duration state in
  let h' := heap_of o in
  (forall l, l <> state -> states h' l = states h l)
  /\ controls h' = controls h
  /\ (start <> state -> states h' start = states h start)
  /\ (forall hr, o = Raised hr -> hr = h).
Proof.
  intros o h'. subst o h'. split; [|split; [|split]].
  - intros l Hne. now apply propagate_heap_other.
  - apply propagate_heap_controls.
  - intros Hne. now apply propagate_heap_other.
  - intros hr. rewrite propagate_spec.
    destruct (is_infinity _); [|discriminate]. now intros [= <-].
Qed.

End PropagateFacts.

Lemma propagate_euler_witness :
  exists h',
    propagate (M := taylor_libm) heap_a 0 0 0.1 1 = Returned h'
    /\ getX (states h' 1%nat) = 0.5 + 0.3 * 0.1 * cos (Libm := taylor_libm) 1
    /\ getY (states h' 1%nat) = -0.25 + 0.3 * 0.1 * sin (Libm := taylor_libm) 1
    /\ getYaw (states h' 1%nat) = 1 + -0.3 * 0.1.
Proof.
  apply (proj1 (propagate_euler (M := taylor_libm) heap_a 0%nat 0%nat 0.1 1%nat)).
  reflexivity.
Defined.

(** C1 (counterexample).  From the start state [(0, 0, +inf)] under control
    [(1, 1)] for duration [1] no successor state is produced: [math.cos]
    raises, the call ends with the heap as it was, and the output object
    still holds what it held. *)
Lemma propagate_raises_at_infinite_yaw :
  let h := const_heap (mkSE2 0 0 infinity) (control2 1 1) in
  propagate (M := taylor_libm) h 0 0 1 1 = Raised h
  /\ (forall h', propagate (M := taylor_libm) h 0 0 1 1 <> Returned h')
  /\ states (heap_of (propagate (M := taylor_libm) h 0 0 1 1)) 1%nat = mkSE2 0 0 infinity.
Proof.
  cbv zeta. split; [reflexivity|]. split; [|reflexivity].
  intros h' H. discriminate H.
Qed.

Lemma propagate_deterministic_witness :
  match propagate (M := taylor_libm) heap_a 0 0 0.1 1,
        propagate (M := taylor_libm) heap_b 3 2 0.1 5 with
  | Returned h1', Returned h2' => states h1' 1%nat = states h2' 5%nat
  | Raised _, Raised _ => True
  | _, _ => False
  end.
Proof.
  apply (propagate_deterministic (M := taylor_libm) heap_a heap_b
           0%nat 3%nat 0%nat 2%nat 0.1 1%nat 5%nat);
    reflexivity.
Defined.

Lemma propagate_frame_witness :
  states (heap_of (propagate (M := taylor_libm) heap_a 0 0 0.1 1)) 0%nat
  = states heap_a 0%nat.
Proof.
  apply (proj1 (proj2 (proj2
           (propagate_frame (M := taylor_libm) heap_a 0%nat 0%nat 0.1 1%nat)))).
  discriminate.
Defined.

(** C6 (counterexample).  With the start object passed as the output object,
    as the planning library does when it chains steps, [propagate] overwrites
    the start state: from [(0, 0, 0)] under control [(1, 1)] for duration [1]
    the call returns and the object ends as [(1, 0, 1)]. *)
Lemma propagate_overwrites_aliased_start :
  let h := const_heap (mkSE2 0 0 0) (control2 1 1) in
  let o := propagate (M := taylor_libm) h 0 0 1 0 in
  states h 0%nat = mkSE2 0 0 0
  /\ (exists h', o = Returned h')
  /\ states (heap_of o) 0%nat = mkSE2 1 0 1
  /\ states (heap_of o) 0%nat <> states h 0%nat.
Proof.
  cbv zeta. split; [reflexivity|]. split; [eexists; reflexivity|].
  split; [vm_compute; reflexivity|].
  intros H. apply (f_equal (fun s => getYaw s =? 0)) in H.
  vm_compute in H. discriminate.
Qed.

(** ** [isStateValid] *)

(** C3.  [isStateValid] answers exactly what [satisfiesBounds] answers on the
    state, and so does the checker [plan] installs; nothing else is tested. *)
Theorem isStateValid_is_satisfiesBounds si h state :
  isStateValid si h state = satisfiesBounds si (states h state)
  /\ plan_validity_checker si h state = satisfiesBounds si (states h state)
  /\ (isStateValid si h state = true <-> satisfiesBounds si (states h state) = true).
Proof. repeat split; auto. Qed.

(** ** Comparisons of binary64 values *)

Lemma SFcompare_antisym x y :
  SFcompare y x = option_map CompOpp (SFcompare x y).
Proof.
  destruct x as [sx | sx | | sx mx ex], y as [sy | sy | | sy my ey];
    simpl; try reflexivity;
    try (destruct sx; reflexivity); try (destruct sy; reflexivity);
    try (destruct sx, sy; reflexivity).
  destruct sx, sy; simpl; try reflexivity;
    rewrite (Z.compare_antisym ey ex);
    destruct (ey ?= ex)%Z; simpl; try reflexivity;
    rewrite ?Pos.compare_cont_antisym; simpl; reflexivity.
Qed.

Lemma SFcompare_refl x : x <> S754_nan -> SFcompare x x = Some Eq.
Proof.
  destruct x as [s | s | | s m e]; simpl; intros Hx; try congruence.
  - destruct s; reflexivity.
  - rewrite Z.compare_refl, Pos.compare_cont_refl. destruct s; reflexivity.
Qed.

Lemma SFcompare_defined x y :
  x <> S754_nan -> y <> S754_nan -> exists c, SFcompare x y = Some c.
Proof.
  destruct x, y; simpl; intros Hx Hy; try congruence; eauto.
Qed.

Lemma not_nan_Prim2SF x : is_nan x = false -> Prim2SF x <> S754_nan.
Proof.
  intros Hx. unfold Prim2SF. rewrite Hx.
  destruct (is_zero x); [discriminate|].
  destruct (is_infinity x); [discriminate|].
  destruct (Z.frexp x) as [r e].
  destruct (shr_fexp prec emax _ _ _) as [shr e'].
  destruct (shr_m shr); discriminate.
Qed.

Lemma not_nan_abs x : is_nan x = false -> Prim2SF (abs x) <> S754_nan.
Proof.
  intros Hx. rewrite abs_spec. apply not_nan_Prim2SF in Hx.
  destruct (Prim2SF x); simpl; congruence.
Qed.

(** On values that are not NaN, "not [h <= a]" is "[a < h]". *)
Lemma leb_false_iff_ltb a h :
  Prim2SF a <> S754_nan -> Prim2SF h <> S754_nan ->
  (h <=? a) = false <-> (a <? h) = true.
Proof.
  intros Ha Hh. rewrite leb_spec, ltb_spec. unfold SFleb, SFltb.
  rewrite (SFcompare_antisym (Prim2SF a) (Prim2SF h)).
  destruct (SFcompare_defined _ _ Ha Hh) as [c ->].
  destruct c; simpl; split; congruence.
Qed.

Lemma leb_refl_not_nan h : Prim2SF h <> S754_nan -> (h <=? h) = true.
Proof.
  intros Hh. rewrite leb_spec. unfold SFleb. now rewrite SFcompare_refl.
Qed.

(** ** [is_free] *)

Lemma existsb_false_Forall {A} (p : A -> bool) l :
  existsb p l = false <-> Forall (fun x => p x = false) l.
Proof.
  induction l as [| a l IH]; simpl.
  - split; auto.
  - rewrite orb_false_iff, IH. split.
    + intros [Ha Hl]. now constructor.
    + intros H. inversion H; subst. auto.
Qed.

Lemma is_free_true coordinates bounds h :
  high0 bounds = Some h ->
  is_free coordinates bounds = Some true
  <-> Forall (fun c => (h <=? abs c) = false) coordinates.
Proof.
  intros Hh. unfold is_free. rewrite Hh. simpl.
  rewrite <- existsb_false_Forall.
  destruct (existsb _ coordinates); split; congruence.
Qed.

Lemma leb_abs_nan h c : is_nan c = true -> (h <=? abs c) = false.
Proof.
  intros Hc. rewrite leb_spec, abs_spec. unfold Prim2SF at 2. rewrite Hc.
  unfold SFleb. now destruct (Prim2SF h).
Qed.

(** C8 (amended).  With [h = bounds.high[0]]: [is_free] always answers; it
    answers "free" exactly when no coordinate [c] has [h <= |c|], which for
    coordinates and a bound that are numbers (not NaN) is: every coordinate
    has [|c| < h]; a NaN coordinate never counts against a point; a
    coordinate with [|c| = h] makes the point not free; and neither the low
    bounds nor the high bounds of the other dimensions change the answer. *)
Theorem is_free_strictly_inside coordinates bounds h :
  high0 bounds = Some h ->
  (exists free, is_free coordinates bounds = Some free)
  /\ (is_free coordinates bounds = Some true
      <-> Forall (fun c => (h <=? abs c) = false) coordinates)
  /\ (forall c, is_nan c = true ->
      is_free (c :: coordinates) bounds = is_free coordinates bounds)
  /\ (is_nan h = false -> Forall (fun c => is_nan c = false) coordinates ->
      (is_free coordinates bounds = Some true
       <-> Forall (fun c => (abs c <? h) = true) coordinates))
  /\ (is_nan h = false -> forall c, In c coordinates -> abs c = h ->
      is_free coordinates bounds = Some false)
  /\ (forall low' rest,
      is_free coordinates (mkBounds low' (h :: rest)) = is_free coordinates bounds).
Proof.
  intros Hh. split; [|split; [|split; [|split; [|split]]]].
  - unfold is_free. rewrite Hh. simpl.
    destruct (existsb _ coordinates); eauto.
  - now apply is_free_true.
  - intros c Hc. unfold is_free. rewrite Hh. cbn [bind existsb].
    now rewrite (leb_abs_nan h c Hc).
  - intros Hnan Hc. rewrite (is_free_true _ _ _ Hh).
    rewrite !Forall_forall. rewrite Forall_forall in Hc.
    split; intros H c Hin.
    + apply leb_false_iff_ltb; auto using not_nan_abs, not_nan_Prim2SF.
    + apply leb_false_iff_ltb; auto using not_nan_abs, not_nan_Prim2SF.
  - intros Hnan c Hin Habs. unfold is_free. rewrite Hh. simpl.
    assert (He : existsb (fun c => h <=? abs c) coordinates = true).
    { apply existsb_exists. exists c. split; [assumption|].
      rewrite Habs. now apply leb_refl_not_nan, not_nan_Prim2SF. }
    now rewrite He.
  - intros low' rest. unfold is_free. rewrite Hh. reflexivity.
Qed.

Lemma is_free_strictly_inside_witness :
  is_free [-0.6; 0.2] plan_bounds = Some true
  <-> Forall (fun c => (abs c <? 1) = true) [-0.6; 0.2].
Proof.
  apply (proj1 (proj2 (proj2 (proj2
           (is_free_strictly_inside [-0.6; 0.2] plan_bounds 1 eq_refl))))).
  - reflexivity.
  - repeat constructor.
Defined.

(** C8 (counterexample).  The finite bounds [[-1e308, 1e308]] per axis give
    at 11 marks the axis [nan, inf, ..., inf, 1e308] (the width of the
    interval overflows), and the one grid point classified as free is
    [[nan, nan]], whose coordinates do not have an absolute value below the
    bound. *)
Lemma is_free_accepts_nan_grid_point :
  linspace (-1e308) 1e308 11
  = [nan; infinity; infinity; infinity; infinity; infinity;
     infinity; infinity; infinity; infinity; 1e308]
  /\ free_grid_states 11 big_bounds = Some [[nan; nan]]
  /\ is_free [nan; nan] big_bounds = Some true
  /\ ~ Forall (fun c => (abs c <? 1e308) = true) [nan; nan].
Proof.
  split; [vm_compute; reflexivity|]. split; [vm_compute; reflexivity|].
  split; [vm_compute; reflexivity|].
  intros H. inversion H as [| c cs Hc Hcs]; subst.
  vm_compute in Hc. discriminate.
Qed.

(** ** [linspace] and [_rec_all_states] *)

Lemma length_set_last y stop : length (set_last y stop) = length y.
Proof.
  destruct y as [| a y]; [reflexivity|].
  unfold set_last. rewrite length_app. simpl length at 2.
  assert (H : a :: y <> []) by discriminate.
  rewrite (app_removelast_last a H) at 2. rewrite length_app. reflexivity.
Qed.

Lemma length_linspace start stop num : length (linspace start stop num) = num.
Proof.
  unfold linspace, arange.
  destruct (1 <? num)%nat; rewrite ?length_set_last;
    destruct (0 <? num - 1)%nat; try destruct (_ =? 0);
    now rewrite !length_map, length_seq.
Qed.

Lemma length_extend_states_pairs (s axis : list float) :
  length (flat_map (fun y => map (fun x => [x; y]) s) axis)
  = (length axis * length s)%nat.
Proof.
  induction axis as [| y rest IH]; simpl; [reflexivity|].
  now rewrite length_app, length_map, IH.
Qed.

(** From index 0 the recursion goes one level down and comes back with the
    product of the axis with itself, the first coordinate running fastest. *)
Lemma rec_all_states_0 depth grid_marks bounds lo hi :
  low0 bounds = Some lo -> high0 bounds = Some hi ->
  _rec_all_states (S (S depth)) 0 grid_marks bounds
  = Some (flat_map (fun y => map (fun x => [x; y]) (linspace lo hi grid_marks))
                   (linspace lo hi grid_marks)).
Proof.
  intros Hlo Hhi. simpl. rewrite Hlo, Hhi. simpl. f_equal.
  rewrite flat_map_concat_map, map_map, <- flat_map_concat_map. reflexivity.
Qed.

(** Past the last dimension the recursion never comes back. *)
Lemma rec_all_states_overflow depth state_index grid_marks bounds :
  (dim <= state_index)%nat ->
  _rec_all_states depth state_index grid_marks bounds = None.
Proof.
  revert state_index. induction depth as [| depth IH]; intros i Hi; [reflexivity|].
  simpl. destruct (low0 bounds); [|reflexivity]. destruct (high0 bounds); [|reflexivity].
  simpl. unfold dim in *.
  destruct (Nat.eqb_spec i 1) as [-> | _]; [lia|].
  rewrite IH by lia. reflexivity.
Qed.

(** C10.  For every [grid_marks], [_rec_all_states] from index 0 (given the
    two levels of recursion it needs, and bounds with a dimension 0) returns
    the states [[x; y]] for [y] then [x] running over the one axis
    [linspace(low[0], high[0], grid_marks)]: [grid_marks ^ 2] states of two
    coordinates each, a state being listed exactly when both coordinates are
    on that axis.  The bounds of the other dimensions play no part. *)
Theorem rec_all_states_product depth grid_marks bounds lo hi :
  low0 bounds = Some lo -> high0 bounds = Some hi ->
  let s := linspace lo hi grid_marks in
  let grid := flat_map (fun y => map (fun x => [x; y]) s) s in
  _rec_all_states (S (S depth)) 0 grid_marks bounds = Some grid
  /\ length s = grid_marks
  /\ length grid = (grid_marks ^ 2)%nat
  /\ (forall st, In st grid -> length st = 2%nat)
  /\ (forall st, In st grid <-> exists x y, st = [x; y] /\ In x s /\ In y s)
  /\ (forall lo_rest hi_rest,
      _rec_all_states (S (S depth)) 0 grid_marks
        (mkBounds (lo :: lo_rest) (hi :: hi_rest)) = Some grid).
Proof.
  intros Hlo Hhi s grid.
  assert (Hmem : forall st, In st grid <-> exists x y, st = [x; y] /\ In x s /\ In y s).
  { intros st. subst grid. rewrite in_flat_map. split.
    - intros [y [Hy Hst]]. apply in_map_iff in Hst as [x [<- Hx]]. eauto.
    - intros [x [y [-> [Hx Hy]]]]. exists y. split; [assumption|].
      apply in_map_iff. eauto. }
  split; [|split; [|split; [|split; [|split]]]].
  - now apply rec_all_states_0.
  - apply length_linspace.
  - subst grid.
    rewrite (length_extend_states_pairs s s).
    subst s. rewrite length_linspace. simpl. lia.
  - intros st Hst. apply Hmem in Hst as [x [y [-> _]]]. reflexivity.
  - exact Hmem.
  - intros lo_rest hi_rest. now apply rec_all_states_0.
Qed.

Lemma rec_all_states_product_witness :
  _rec_all_states 2 0 3 plan_bounds
  = Some [[-1; -1]; [0; -1]; [1; -1]; [-1; 0]; [0; 0]; [1; 0]; [-1; 1]; [0; 1]; [1; 1]].
Proof.
  exact (proj1 (rec_all_states_product 0 3 plan_bounds (-1) 1 eq_refl eq_refl)).
Defined.

(** ** [get_fixed_start_goal_pairs] *)

Lemma pairs_loop_done fuel all_pairs grid_marks bounds :
  (1000 <= length all_pairs)%nat ->
  pairs_loop fuel all_pairs grid_marks bounds = Some all_pairs.
Proof.
  intros Hlen. apply Nat.ltb_ge in Hlen.
  destruct fuel; simpl; now rewrite Hlen.
Qed.

Lemma pairs_loop_step fuel all_pairs grid_marks bounds :
  (length all_pairs < 1000)%nat ->
  pairs_loop (S fuel) all_pairs grid_marks bounds
  = (all_pairs' <- pairs_at grid_marks bounds ;;
     pairs_loop fuel all_pairs' (grid_marks + 1) bounds).
Proof.
  intros Hlen. apply Nat.ltb_lt in Hlen. simpl. now rewrite Hlen.
Qed.

Lemma pairs_loop_out_of_fuel all_pairs grid_marks bounds :
  (length all_pairs < 1000)%nat ->
  pairs_loop 0 all_pairs grid_marks bounds = None.
Proof. intros Hlen. apply Nat.ltb_lt in Hlen. simpl. now rewrite Hlen. Qed.

(** Enough fuel gives the pairs of the first resolution that has 1000 of them. *)
Lemma pairs_loop_reaches k :
  forall fuel all_pairs grid_marks bounds pairs,
  (length all_pairs < 1000)%nat ->
  too_few_pairs bounds grid_marks k ->
  pairs_at (grid_marks + k) bounds = Some pairs ->
  (1000 <= length pairs)%nat ->
  (k < fuel)%nat ->
  pairs_loop fuel all_pairs grid_marks bounds = Some pairs.
Proof.
  induction k as [| k IH]; intros fuel acc gm bounds pairs Hacc Hfew Hat Hlen Hfuel.
  - destruct fuel as [| fuel]; [lia|].
    rewrite pairs_loop_step by assumption.
    rewrite Nat.add_0_r in Hat. rewrite Hat. simpl.
    now apply pairs_loop_done.
  - destruct fuel as [| fuel]; [lia|].
    rewrite pairs_loop_step by assumption.
    destruct (Hfew gm ltac:(lia)) as [p [Hp Hplen]]. rewrite Hp. simpl.
    apply IH; try assumption; try lia.
    + intros m Hm. apply Hfew. lia.
    + now replace (gm + 1 + k)%nat with (gm + S k)%nat by lia.
Qed.

(** Whatever the loop returns is the pairs of the first such resolution. *)
Lemma pairs_loop_returns fuel :
  forall all_pairs grid_marks bounds pairs,
  (length all_pairs < 1000)%nat ->
  pairs_loop fuel all_pairs grid_marks bounds = Some pairs ->
  exists k, too_few_pairs bounds grid_marks k
    /\ pairs_at (grid_marks + k) bounds = Some pairs
    /\ (1000 <= length pairs)%nat.
Proof.
  induction fuel as [| fuel IH]; intros acc gm bounds pairs Hacc Hrun.
  - rewrite pairs_loop_out_of_fuel in Hrun by assumption. discriminate.
  - rewrite pairs_loop_step in Hrun by assumption.
    destruct (pairs_at gm bounds) as [p |] eqn:Hp; [|discriminate].
    simpl in Hrun.
    destruct (Nat.lt_ge_cases (length p) 1000) as [Hlt | Hge].
    + destruct (IH _ _ _ _ Hlt Hrun) as [k [Hfew [Hat Hlen]]].
      exists (S k). split; [|split].
      * intros m Hm. destruct (Nat.eq_dec m gm) as [-> | Hne]; [eauto|].
        apply Hfew. lia.
      * now replace (gm + S k)%nat with (gm + 1 + k)%nat by lia.
      * assumption.
    + rewrite pairs_loop_done in Hrun by assumption.
      injection Hrun as <-. exists 0%nat. split; [|split].
      * intros m Hm. lia.
      * now rewrite Nat.add_0_r.
      * assumption.
Qed.

Lemma length_ordered_pairs grid_states :
  length (ordered_pairs grid_states) = (length grid_states * length grid_states)%nat.
Proof.
  unfold ordered_pairs.
  assert (H : forall outer : list (list float),
    length (flat_map (fun s1 => map (fun s2 => (s1, s2)) grid_states) outer)
    = (length outer * length grid_states)%nat).
  { induction outer as [| s rest IH]; simpl; [reflexivity|].
    now rewrite length_app, length_map, IH. }
  apply H.
Qed.

(** C2 (amended).  The loop raises the resolution from 11 marks until the
    ordered pairs of free grid points number at least 1000, and returns the
    pairs of that resolution, all ordered pairs among its free grid points:
    if resolutions [11 .. 11 + k - 1] each give fewer than 1000 pairs and
    resolution [11 + k] gives at least 1000, then every run with more than
    [k] iterations allowed returns the pairs of resolution [11 + k]; and a
    run that returns, returns such pairs. *)
Theorem get_fixed_start_goal_pairs_first_1000_pairs bounds :
  (forall k pairs fuel,
     too_few_pairs bounds 11 k ->
     pairs_at (11 + k) bounds = Some pairs ->
     (1000 <= length pairs)%nat ->
     (k < fuel)%nat ->
     get_fixed_start_goal_pairs fuel bounds = Some pairs)
  /\ (forall fuel pairs,
     get_fixed_start_goal_pairs fuel bounds = Some pairs ->
     exists k free,
       too_few_pairs bounds 11 k
       /\ free_grid_states (11 + k) bounds = Some free
       /\ pairs = ordered_pairs free
       /\ (1000 <= length free * length free)%nat).
Proof.
  split.
  - intros k pairs fuel Hfew Hat Hlen Hfuel.
    unfold get_fixed_start_goal_pairs.
    apply (pairs_loop_reaches k); simpl; try assumption; lia.
  - intros fuel pairs Hrun. unfold get_fixed_start_goal_pairs in Hrun.
    apply pairs_loop_returns in Hrun as [k [Hfew [Hat Hlen]]]; [|simpl; lia].
    unfold pairs_at in Hat.
    destruct (free_grid_states (11 + k) bounds) as [free |] eqn:Hfree; [|discriminate].
    simpl in Hat. injection Hat as <-.
    exists k, free. rewrite length_ordered_pairs in Hlen. auto.
Qed.

(** *** The run on the bounds of [plan] *)

(** At 11 marks the square [[-1, 1]^2] has 81 free grid points, hence 6561
    ordered pairs, the one at index 100 being [pair_100]. *)
Lemma grid_11_computed :
  option_map (fun free => (length free, nth_error (ordered_pairs free) 100))
             (free_grid_states 11 plan_bounds)
  = Some (81%nat, Some pair_100).
Proof. vm_compute. reflexivity. Qed.

Lemma grid_11_free :
  exists free,
    free_grid_states 11 plan_bounds = Some free
    /\ length free = 81%nat
    /\ nth_error (ordered_pairs free) 100 = Some pair_100.
Proof.
  pose proof grid_11_computed as H.
  destruct (free_grid_states 11 plan_bounds) as [free |]; [|discriminate].
  simpl in H. injection H as Hlen Hnth. eauto.
Qed.

Lemma get_fixed_start_goal_pairs_plan_bounds free fuel :
  free_grid_states 11 plan_bounds = Some free ->
  length free = 81%nat ->
  get_fixed_start_goal_pairs (S fuel) plan_bounds = Some (ordered_pairs free).
Proof.
  intros Hfree Hlen. unfold get_fixed_start_goal_pairs.
  rewrite pairs_loop_step by (simpl; lia).
  unfold pairs_at. rewrite Hfree. simpl bind.
  apply pairs_loop_done. rewrite length_ordered_pairs, Hlen. simpl. lia.
Qed.

Lemma get_fixed_start_goal_pairs_first_1000_pairs_witness :
  exists free,
    free_grid_states 11 plan_bounds = Some free
    /\ get_fixed_start_goal_pairs 1 plan_bounds = Some (ordered_pairs free).
Proof.
  destruct grid_11_free as [free [Hfree [Hlen _]]].
  exists free. split; [assumption|].
  apply (proj1 (get_fixed_start_goal_pairs_first_1000_pairs plan_bounds)
           0%nat (ordered_pairs free) 1%nat).
  - intros m Hm. lia.
  - unfold pairs_at. simpl Nat.add. rewrite Hfree. reflexivity.
  - rewrite length_ordered_pairs, Hlen. simpl. lia.
  - lia.
Defined.

(** C2 (counterexample).  On the bounds [[-1, 1]] per axis the loop stops at
    its first resolution, 11 marks, with 81 free grid points, fewer than
    1000, and returns their 6561 ordered pairs. *)
Lemma get_fixed_start_goal_pairs_stops_at_81_points :
  exists free,
    free_grid_states 11 plan_bounds = Some free
    /\ get_fixed_start_goal_pairs 1 plan_bounds = Some (ordered_pairs free)
    /\ length free = 81%nat
    /\ (length free < 1000)%nat
    /\ length (ordered_pairs free) = (81 * 81)%nat.
Proof.
  destruct grid_11_free as [free [Hfree [Hlen _]]].
  exists free. split; [assumption|]. split; [|split; [|split]].
  - now apply get_fixed_start_goal_pairs_plan_bounds.
  - assumption.
  - lia.
  - rewrite length_ordered_pairs, Hlen. reflexivity.
Qed.

(** C7.  On the bounds [[-1, 1]] per axis the enumeration starting at 11
    marks ends inside its first iteration, before any increase of the
    resolution is used: with no iteration allowed it does not return, and
    with one or more allowed every run returns the same list, the 6561
    ordered pairs of the 81 free grid points of the 11-mark grid, in the
    same order. *)
Theorem get_fixed_start_goal_pairs_terminates :
  exists free,
    free_grid_states 11 plan_bounds = Some free
    /\ get_fixed_start_goal_pairs 0 plan_bounds = None
    /\ (forall fuel,
        get_fixed_start_goal_pairs (S fuel) plan_bounds = Some (ordered_pairs free))
    /\ (forall fuel1 fuel2,
        get_fixed_start_goal_pairs (S fuel1) plan_bounds
        = get_fixed_start_goal_pairs (S fuel2) plan_bounds)
    /\ length (ordered_pairs free) = (81 * 81)%nat.
Proof.
  destruct grid_11_free as [free [Hfree [Hlen _]]].
  exists free. split; [assumption|]. split; [reflexivity|]. split; [|split].
  - intros fuel. now apply get_fixed_start_goal_pairs_plan_bounds.
  - intros fuel1 fuel2.
    now rewrite !(get_fixed_start_goal_pairs_plan_bounds free).
  - rewrite length_ordered_pairs, Hlen. reflexivity.
Qed.

(** ** [plan] *)

Section DriverFacts.
Variable solve : SimpleSetup -> float -> bool.

Lemma plan_step_skip bounds i sg v :
  i <> 100%nat -> plan_step solve bounds i sg v = Some v.
Proof.
  intros Hi. unfold plan_step. destruct sg as [s g].
  apply Nat.eqb_neq in Hi. now rewrite Hi.
Qed.

Lemma plan_loop_past bounds pairs :
  forall i v, (100 < i)%nat -> plan_loop solve bounds i pairs v = Some v.
Proof.
  induction pairs as [| sg rest IH]; intros i v Hi; [reflexivity|].
  simpl. rewrite plan_step_skip by lia. simpl. apply IH. lia.
Qed.

Lemma bind_plan_loop_past bounds rest (m : option PlanVars) :
  (v' <- m ;; plan_loop solve bounds 101 rest v') = m.
Proof. destruct m as [v' |]; simpl; [|reflexivity]. apply plan_loop_past. lia. Qed.

(** The loop does the body at index 100 and nothing else. *)
Lemma plan_loop_only_100 bounds pairs :
  forall i v, (i <= 100)%nat ->
  plan_loop solve bounds i pairs v
  = match nth_error pairs (100 - i) with
    | Some sg => plan_step solve bounds 100 sg v
    | None => Some v
    end.
Proof.
  induction pairs as [| sg rest IH]; intros i v Hi.
  - cbn [plan_loop]. destruct (100 - i)%nat; reflexivity.
  - destruct (Nat.eq_dec i 100) as [-> | Hne].
    + replace (100 - 100)%nat with 0%nat by lia.
      cbn [plan_loop nth_error]. apply bind_plan_loop_past.
    + cbn [plan_loop]. rewrite plan_step_skip by assumption. cbn [bind].
      rewrite IH by lia.
      replace (100 - i)%nat with (S (100 - S i)) by lia. reflexivity.
Qed.

(** The body at index 100: the start and goal variables are rebuilt from the
    pair with yaw 0, installed with tolerance 0.05, and [solve] is called
    once, for 20 seconds. *)
Lemma plan_step_100 bounds lo hi s0 s1 s_rest g0 g1 g_rest v :
  low0 bounds = Some lo -> high0 bounds = Some hi ->
  let start := mkSE2 s0 s1 0 in
  let goal := mkSE2 g0 g1 0 in
  let ss := mkSetup (state_bounds (var_ss v)) (control_bounds (var_ss v))
                    (Some (start, goal, 0.05)) (Some RRT) (Some 0.1) in
  plan_step solve bounds 100 (s0 :: s1 :: s_rest, g0 :: g1 :: g_rest) v
  = Some (mkVars start goal ss
            (events v ++ [PrintBounds lo hi; Solve ss 20]
             ++ (if solve ss 20 then [PrintStartGoal start goal; PrintSolutionPath]
                 else []))).
Proof.
  intros Hlo Hhi start goal ss. unfold plan_step.
  cbn [Nat.eqb nth_error bind]. rewrite Hlo, Hhi. reflexivity.
Qed.

(** The whole run of [plan], given at least one iteration of the enumeration. *)
Lemma plan_run fuel :
  plan solve (S fuel)
  = Some (mkVars (mkSE2 (-0.6) (-0.8) 0) (mkSE2 (-0.6) (-0.39999999999999991) 0)
            pair_100_setup
            ([PrintBounds (-1) 1; Solve pair_100_setup 20]
             ++ (if solve pair_100_setup 20
                 then [PrintStartGoal (mkSE2 (-0.6) (-0.8) 0)
                         (mkSE2 (-0.6) (-0.39999999999999991) 0);
                       PrintSolutionPath]
                 else []))).
Proof.
  destruct grid_11_free as [free [Hfree [Hlen Hnth]]].
  unfold plan. rewrite (get_fixed_start_goal_pairs_plan_bounds free) by assumption.
  cbn [bind]. rewrite plan_loop_only_100 by lia.
  replace (100 - 0)%nat with 100%nat by reflexivity. rewrite Hnth.
  unfold pair_100.
  rewrite (plan_step_100 plan_bounds (-1) 1) by reflexivity.
  reflexivity.
Qed.

Lemma plan_solve_calls fuel :
  option_map (fun v => solve_calls (events v)) (plan solve (S fuel))
  = Some [(pair_100_setup, 20)].
Proof.
  rewrite plan_run. destruct (solve pair_100_setup 20); reflexivity.
Qed.

End DriverFacts.

(** C9.  Whatever the enumeration holds, the loop of [plan] leaves every pair
    at an index other than 100 untouched and runs its body on the pair at
    index 100 alone.  In [plan] that pair exists; the start and goal
    variables, built as [(-0.5, 0, 0)] and [(0, 0.5, 0)], end as that pair's
    coordinates with yaw 0, and the one call of [solve] is made on them. *)
Theorem plan_solves_only_pair_100 (solve : SimpleSetup -> float -> bool) :
  (forall bounds i sg v, i <> 100%nat -> plan_step solve bounds i sg v = Some v)
  /\ (forall bounds pairs v,
      plan_loop solve bounds 0 pairs v
      = match nth_error pairs 100 with
        | Some sg => plan_step solve bounds 100 sg v
        | None => Some v
        end)
  /\ var_start plan_init = mkSE2 (-0.5) 0 0
  /\ var_goal plan_init = mkSE2 0 0.5 0
  /\ (forall fuel, exists pairs s0 s1 g0 g1 v,
      get_fixed_start_goal_pairs (S fuel) plan_bounds = Some pairs
      /\ nth_error pairs 100 = Some ([s0; s1], [g0; g1])
      /\ plan solve (S fuel) = Some v
      /\ var_start v = mkSE2 s0 s1 0
      /\ var_goal v = mkSE2 g0 g1 0
      /\ solve_calls (events v)
         = [(mkSetup plan_bounds plan_cbounds
               (Some (mkSE2 s0 s1 0, mkSE2 g0 g1 0, 0.05)) (Some RRT) (Some 0.1),
             20)]).
Proof.
  split; [|split; [|split; [|split]]].
  - intros bounds i sg v Hi. now apply plan_step_skip.
  - intros bounds pairs v. now rewrite plan_loop_only_100 by lia.
  - reflexivity.
  - reflexivity.
  - intros fuel. destruct grid_11_free as [free [Hfree [Hlen Hnth]]].
    exists (ordered_pairs free), (-0.6), (-0.8), (-0.6), (-0.39999999999999991).
    eexists. split; [now apply get_fixed_start_goal_pairs_plan_bounds|].
    split; [exact Hnth|]. split; [apply plan_run|].
    split; [reflexivity|]. split; [reflexivity|].
    cbn [events]. destruct (solve pair_100_setup 20); reflexivity.
Qed.

Lemma plan_solves_only_pair_100_witness :
  plan_step always_solved plan_bounds 7 pair_100 plan_init = Some plan_init.
Proof.
  apply (proj1 (plan_solves_only_pair_100 always_solved) plan_bounds 7%nat).
  discriminate.
Defined.

(** The configuration of the one call of [solve] in a run of [plan], with
    every number written out: state bounds [[-1, 1]] per axis, control bounds
    [[-0.3, 0.3]] per component, goal tolerance 0.05, planner RRT with step
    size 0.1 and a budget of 20 seconds, start [(-0.6, -0.8, 0)] and goal
    [(-0.6, -0.39999999999999991, 0)].  The solution path is printed exactly
    when the status the call returns counts as true. *)
Lemma plan_solves_pair_100_scenario (solve : SimpleSetup -> float -> bool) fuel :
  exists v,
    plan solve (S fuel) = Some v
    /\ solve_calls (events v)
       = [(mkSetup (mkBounds [-1; -1] [1; 1]) (mkBounds [-0.3; -0.3] [0.3; 0.3])
             (Some (mkSE2 (-0.6) (-0.8) 0,
                    mkSE2 (-0.6) (-0.39999999999999991) 0,
                    0.05))
             (Some RRT) (Some 0.1),
           20)]
    /\ (In PrintSolutionPath (events v) <-> solve pair_100_setup 20 = true).
Proof.
  eexists. split; [apply plan_run|]. cbn [events].
  destruct (solve pair_100_setup 20); split; try reflexivity; split.
  - reflexivity.
  - intros _. simpl. auto.
  - simpl. intros [H | [H | []]]; discriminate.
  - discriminate.
Qed.

(** The one problem [plan] hands to the planner is not the scenario it sets
    out with: its start is [(-0.6, -0.8, 0)], not [(-0.5, 0, 0)]. *)
Lemma plan_does_not_solve_reference_scenario :
  option_map (fun v => solve_calls (events v)) (plan always_solved 1)
  = Some [(pair_100_setup, 20)]
  /\ option_map (fun v => solve_calls (events v)) (plan always_solved 1)
     <> Some [(reference_setup, 20)].
Proof.
  split; [apply plan_solve_calls|].
  rewrite plan_solve_calls. intros H.
  apply (f_equal (fun o =>
           match o with
           | Some [(ss, _)] =>
             match start_goal ss with
             | Some (start, _, _) => getX start =? -0.5
             | None => false
             end
           | _ => false
           end)) in H.
  vm_compute in H. discriminate.
Qed.

(** * Part III: further properties *)

(** ** [propagate], step after step *)

Section PropagateChain.
Context {M : Libm}.

Lemma propagate_steps_spec n :
  forall h start control duration state,
  match euler_steps n (states h start) (controls h control) duration with
  | Some s' =>
    exists h',
      propagate_steps n h start control duration state = Returned h'
      /\ (start = state \/ (0 < n)%nat -> states h' state = s')
      /\ controls h' = controls h
      /\ (forall l, l <> state -> states h' l = states h l)
  | None =>
    exists hr,
      propagate_steps n h start control duration state = Raised hr
      /\ controls hr = controls h
      /\ (forall l, l <> state -> states hr l = states h l)
  end.
Proof.
  induction n as [| n IH]; intros h start control duration state.
  - cbn [euler_steps propagate_steps]. exists h.
    split; [reflexivity|]. split; [|split; [reflexivity | reflexivity]].
    intros [-> | Hn]; [reflexivity | lia].
  - cbn [euler_steps propagate_steps]. rewrite propagate_spec.
    destruct (is_infinity (getYaw (states h start))) eqn:Hyaw.
    + exists h. repeat split; reflexivity.
    + specialize (IH (propagate_writes h start control duration state)
                     state control duration state).
      rewrite propagate_result in IH. cbn [controls propagate_writes update_state] in IH.
      destruct (euler_steps n _ _ _) as [s' |].
      * destruct IH as [h' [Hrun [Hs [Hc Ho]]]]. exists h'.
        split; [exact Hrun|]. split; [|split].
        -- intros _. apply Hs. now left.
        -- exact Hc.
        -- intros l Hl. rewrite Ho by assumption. now apply propagate_other.
      * destruct IH as [hr [Hrun [Hc Ho]]]. exists hr.
        split; [exact Hrun|]. split; [exact Hc|].
        intros l Hl. rewrite Ho by assumption. now apply propagate_other.
Qed.

(** X1.  Chaining steps in place, the way the planning library integrates
    over several steps (the result object of one call is the start object of
    the next), composes Euler steps for as long as no step starts from an
    infinite yaw: if the [n + 1] Euler steps on the start values can all be
    taken, the chain of [n + 1] calls returns with their result in the
    output object; if one of them starts from an infinite yaw, the chain
    ends in the [ValueError] of that call.  Either way the controls and every
    other state object are as they were. *)
Theorem propagate_chain n h start control duration state :
  match euler_steps (S n) (states h start) (controls h control) duration with
  | Some s' =>
    exists h',
      propagate_steps (S n) h start control duration state = Returned h'
      /\ states h' state = s'
      /\ controls h' = controls h
      /\ (forall l, l <> state -> states h' l = states h l)
  | None =>
    exists hr,
      propagate_steps (S n) h start control duration state = Raised hr
      /\ controls hr = controls h
      /\ (forall l, l <> state -> states hr l = states h l)
  end.
Proof.
  pose proof (propagate_steps_spec (S n) h start control duration state) as H.
  destruct (euler_steps (S n) _ _ _) as [s' |]; [|exact H].
  destruct H as [h' [Hrun [Hs [Hc Ho]]]]. exists h'.
  split; [exact Hrun|]. split; [apply Hs; right; lia|]. auto.
Qed.

(** X2.  Calling [propagate] again with the same arguments and an output
    object other than the start object changes nothing: the second call ends
    as the first did (it returns exactly when the first returned) and leaves
    every state object and control with the contents the first one left. *)
Theorem propagate_idempotent h start control duration state :
  start <> state ->
  let o1 := propagate h start control duration state in
  let o2 := propagate (heap_of o1) start control duration state in
  (forall l, states (heap_of o2) l = states (heap_of o1) l)
  /\ controls (heap_of o2) = controls (heap_of o1)
  /\ ((exists h1, o1 = Returned h1) <-> (exists h2, o2 = Returned h2)).
Proof.
  intros Hne o1 o2. subst o1 o2. rewrite (propagate_spec h).
  destruct (is_infinity (getYaw (states h start))) eqn:Hyaw.
  - cbn [heap_of]. rewrite propagate_spec, Hyaw. cbn [heap_of].
    split; [reflexivity|]. split; [reflexivity|].
    split; intros [h' H]; discriminate H.
  - cbn [heap_of]. rewrite propagate_spec.
    rewrite (propagate_other h start control duration state start Hne), Hyaw.
    cbn [heap_of]. split; [|split].
    + intros l. destruct (Nat.eq_dec l state) as [-> | Hl].
      * rewrite !propagate_result.
        now rewrite (propagate_other h start control duration state start Hne).
      * now rewrite propagate_other by assumption.
    + reflexivity.
    + split; intros _; eexists; reflexivity.
Qed.

End PropagateChain.

(** A chain that ends in the exception: from [(0, 0, 0)] under control
    [(1e308, 1e308)] for duration [10] the first call returns and leaves the
    yaw infinite, and the second call, in place, raises at once. *)
Example propagate_steps_overflow :
  let h := const_heap (mkSE2 0 0 0) (control2 1e308 1e308) in
  (exists h1,
     propagate (M := taylor_libm) h 0 0 10 0 = Returned h1
     /\ states h1 0%nat = mkSE2 infinity nan infinity
     /\ propagate (M := taylor_libm) h1 0 0 10 0 = Raised h1)
  /\ exists hr, propagate_steps (M := taylor_libm) 2 h 0 0 10 0 = Raised hr.
Proof.
  cbv zeta. split.
  - eexists. split; [reflexivity|]. split; [vm_compute; reflexivity | reflexivity].
  - eexists. reflexivity.
Qed.

Lemma propagate_idempotent_witness :
  let o1 := propagate (M := taylor_libm) heap_a 0 0 0.1 1 in
  let o2 := propagate (M := taylor_libm) (heap_of o1) 0 0 0.1 1 in
  (forall l, states (heap_of o2) l = states (heap_of o1) l)
  /\ controls (heap_of o2) = controls (heap_of o1)
  /\ ((exists h1, o1 = Returned h1) <-> (exists h2, o2 = Returned h2)).
Proof.
  apply (propagate_idempotent (M := taylor_libm) heap_a 0%nat 0%nat 0.1 1%nat).
  discriminate.
Defined.

(** ** [MyDecomposition] *)

(** X3.  [project] overwrites entries 0 and 1 of the coordinate vector with
    the state's [x] and [y] and keeps every further entry; on a vector with
    fewer than two entries it raises. *)
Theorem project_overwrites_first_two h s coord :
  project h s coord
  = match coord with
    | _ :: _ :: rest => Some (getX (states h s) :: getY (states h s) :: rest)
    | _ => None
    end.
Proof. destruct coord as [| a [| b rest]]; reflexivity. Qed.

Lemma sampleFullState_result sampler h c0 c1 rest s :
  sampleFullState sampler h (c0 :: c1 :: rest) s
  = Some (update_state (update_state h s (sampleUniform sampler)) s (setXY c0 c1)).
Proof. reflexivity. Qed.

(** X4.  [sampleFullState] followed by [project] is a round trip on the
    coordinates: the state it leaves has the sampler's yaw and projects onto
    the first two coordinates it was given (so projecting into the same
    vector changes nothing), and no other state object is touched.  With
    fewer than two coordinates it raises. *)
Theorem sampleFullState_project_round_trip sampler h coord s :
  match sampleFullState sampler h coord s with
  | Some h' =>
    project h' s coord = Some coord
    /\ (forall out o0 o1 rest, out = o0 :: o1 :: rest ->
        project h' s out = Some (firstn 2 coord ++ rest))
    /\ getYaw (states h' s) = getYaw (sampleUniform sampler (states h s))
    /\ (forall l, l <> s -> states h' l = states h l)
    /\ controls h' = controls h
  | None => (length coord < 2)%nat
  end.
Proof.
  destruct coord as [| c0 [| c1 rest]]; try (simpl; lia).
  rewrite sampleFullState_result.
  split; [|split; [|split; [|split]]].
  - rewrite project_overwrites_first_two, !update_state_same. reflexivity.
  - intros out o0 o1 rest' ->.
    rewrite project_overwrites_first_two, !update_state_same. reflexivity.
  - rewrite !update_state_same. reflexivity.
  - intros l Hl. now rewrite !update_state_other by assumption.
  - reflexivity.
Qed.

(** ** [is_free], further *)

Lemma abs_opp c : abs (- c) = abs c.
Proof.
  apply Prim2SF_inj. rewrite !abs_spec, opp_spec.
  destruct (Prim2SF c); reflexivity.
Qed.

(** X5.  [is_free] does not tell a point from its mirror images: changing
    the sign of any of the coordinates leaves the answer as it is, whatever
    the bounds (so below an asymmetric low bound a point is judged by the
    high bound of its mirror image). *)
Theorem is_free_mirror coordinates coordinates' bounds :
  mirrored coordinates coordinates' ->
  is_free coordinates' bounds = is_free coordinates bounds.
Proof.
  intros Hm. unfold is_free. destruct (high0 bounds) as [h |]; [|reflexivity].
  assert (He : existsb (fun c => h <=? abs c) coordinates'
               = existsb (fun c => h <=? abs c) coordinates).
  { induction Hm as [| c c' cs cs' Hc _ IH]; [reflexivity|].
    simpl. rewrite IH.
    destruct Hc as [-> | ->]; [reflexivity|]. now rewrite abs_opp. }
  simpl. now rewrite He.
Qed.

Lemma is_free_mirror_witness :
  is_free [0.5; - 0.25] (mkBounds [0; 0] [1; 1])
  = is_free [0.5; 0.25] (mkBounds [0; 0] [1; 1]).
Proof.
  apply (is_free_mirror [0.5; 0.25] [0.5; - 0.25] (mkBounds [0; 0] [1; 1])).
  constructor; [left; reflexivity|].
  constructor; [right; reflexivity|]. constructor.
Defined.

(** X6.  A point is free exactly when its parts are: on concatenated
    coordinates [is_free] is the conjunction of its answers on the parts,
    the point with no coordinates is free, and bounds with no dimension make
    it raise on every point. *)
Theorem is_free_parts bounds :
  (forall c1 c2,
     is_free (c1 ++ c2) bounds
     = (f1 <- is_free c1 bounds ;; f2 <- is_free c2 bounds ;; Some (f1 && f2)))
  /\ (forall h, high0 bounds = Some h -> is_free [] bounds = Some true)
  /\ (high bounds = [] -> forall coordinates, is_free coordinates bounds = None).
Proof.
  split; [|split].
  - intros c1 c2. unfold is_free. destruct (high0 bounds) as [h |]; [|reflexivity].
    simpl. rewrite existsb_app.
    destruct (existsb _ c1), (existsb _ c2); reflexivity.
  - intros h Hh. unfold is_free. now rewrite Hh.
  - intros Hhigh coordinates. unfold is_free, high0. now rewrite Hhigh.
Qed.

Lemma is_free_parts_witness : is_free [] plan_bounds = Some true.
Proof.
  apply (proj1 (proj2 (is_free_parts plan_bounds)) 1). reflexivity.
Defined.

(** ** The grid, by index *)

Lemma nth_error_flat_map_map {A B C : Type} (f : A -> B -> C) (inner : list B) :
  forall (outer : list A) i j a b,
  nth_error outer i = Some a ->
  nth_error inner j = Some b ->
  nth_error (flat_map (fun a' => map (f a') inner) outer) (i * length inner + j)
  = Some (f a b).
Proof.
  induction outer as [| a0 outer IH]; intros i j a b Ha Hb.
  - destruct i; discriminate.
  - assert (Hj : (j < length inner)%nat) by (apply nth_error_Some; congruence).
    destruct i as [| i]; simpl in Ha.
    + injection Ha as ->. simpl.
      rewrite nth_error_app1 by now rewrite length_map.
      now apply map_nth_error.
    + cbn [flat_map].
      rewrite nth_error_app2 by (rewrite length_map, Nat.mul_succ_l; lia).
      rewrite length_map.
      replace (S i * length inner + j - length inner)%nat
        with (i * length inner + j)%nat by (rewrite Nat.mul_succ_l; lia).
      now apply IH.
Qed.

(** X7.  The grid is laid out with the first coordinate running fastest:
    the state at index [j * grid_marks + i] is [[x; y]] for [x] the [i]-th and
    [y] the [j]-th mark of the axis. *)
Theorem rec_all_states_index depth grid_marks bounds lo hi i j x y :
  low0 bounds = Some lo -> high0 bounds = Some hi ->
  nth_error (linspace lo hi grid_marks) i = Some x ->
  nth_error (linspace lo hi grid_marks) j = Some y ->
  exists grid,
    _rec_all_states (S (S depth)) 0 grid_marks bounds = Some grid
    /\ nth_error grid (j * grid_marks + i) = Some [x; y].
Proof.
  intros Hlo Hhi Hx Hy. eexists.
  split; [exact (rec_all_states_0 depth grid_marks bounds lo hi Hlo Hhi)|].
  pose proof (nth_error_flat_map_map (fun y' x' => [x'; y'])
                (linspace lo hi grid_marks) (linspace lo hi grid_marks)
                j i y x Hy Hx) as H.
  now rewrite length_linspace in H.
Qed.

Lemma rec_all_states_index_witness :
  exists grid,
    _rec_all_states 2 0 3 plan_bounds = Some grid
    /\ nth_error grid (0 * 3 + 2) = Some [1; -1].
Proof.
  apply (rec_all_states_index 0 3 plan_bounds (-1) 1 2 0 1 (-1));
    reflexivity.
Defined.

Lemma rec_all_states_no_bounds depth state_index grid_marks bounds :
  low0 bounds = None \/ high0 bounds = None ->
  _rec_all_states depth state_index grid_marks bounds = None.
Proof.
  intros H. destruct depth as [| depth]; [reflexivity|].
  cbn [_rec_all_states]. destruct H as [H | H].
  - now rewrite H.
  - rewrite H. now destruct (low0 bounds).
Qed.

(** X8.  The edges of [_rec_all_states]: from index 1 it returns the marks
    of the axis as one-coordinate states; from any index past the last
    dimension it never returns, however deep the recursion may go; with no
    marks the grid is empty; and with bounds lacking a dimension 0 it
    raises. *)
Theorem rec_all_states_edges grid_marks bounds :
  (forall depth lo hi, low0 bounds = Some lo -> high0 bounds = Some hi ->
     _rec_all_states (S depth) 1 grid_marks bounds
     = Some (map (fun x => [x]) (linspace lo hi grid_marks)))
  /\ (forall depth state_index, (2 <= state_index)%nat ->
      _rec_all_states depth state_index grid_marks bounds = None)
  /\ (forall depth lo hi, low0 bounds = Some lo -> high0 bounds = Some hi ->
      _rec_all_states (S (S depth)) 0 0 bounds = Some [])
  /\ (low bounds = [] \/ high bounds = [] ->
      forall depth state_index,
      _rec_all_states depth state_index grid_marks bounds = None).
Proof.
  split; [|split; [|split]].
  - intros depth lo hi Hlo Hhi. cbn [_rec_all_states]. now rewrite Hlo, Hhi.
  - intros depth i Hi. now apply rec_all_states_overflow.
  - intros depth lo hi Hlo Hhi.
    now rewrite (rec_all_states_0 depth 0 bounds lo hi).
  - intros H depth i. apply rec_all_states_no_bounds.
    unfold low0, high0. destruct H as [-> | ->]; auto.
Qed.

Lemma rec_all_states_edges_witness :
  _rec_all_states 1 1 3 plan_bounds = Some [[-1]; [0]; [1]].
Proof.
  exact (proj1 (rec_all_states_edges 3 plan_bounds) 0%nat (-1) 1 eq_refl eq_refl).
Defined.

(** ** What [get_fixed_start_goal_pairs] returns *)

Lemma filter_free_In bounds :
  forall grid_states kept,
  filter_free grid_states bounds = Some kept ->
  forall s, In s kept <-> In s grid_states /\ is_free s bounds = Some true.
Proof.
  induction grid_states as [| s0 rest IH]; intros kept Hk s.
  - injection Hk as <-. simpl. tauto.
  - cbn [filter_free] in Hk.
    destruct (is_free s0 bounds) as [free |] eqn:Hfree; [|discriminate].
    destruct (filter_free rest bounds) as [kept' |]; [|discriminate].
    cbn [bind] in Hk. injection Hk as <-.
    specialize (IH kept' eq_refl s).
    destruct free; simpl; rewrite IH; split.
    + intros [<- | [Hin Hf]]; auto.
    + intros [[<- | Hin] Hf]; auto.
    + intros [Hin Hf]; auto.
    + intros [[<- | Hin] Hf]; [congruence | auto].
Qed.

Lemma rec_all_states_has_bounds depth state_index grid_marks bounds grid :
  _rec_all_states depth state_index grid_marks bounds = Some grid ->
  exists lo hi, low0 bounds = Some lo /\ high0 bounds = Some hi.
Proof.
  intros Hg.
  destruct (low0 bounds) as [lo |] eqn:Hlo;
    [|rewrite rec_all_states_no_bounds in Hg by auto; discriminate].
  destruct (high0 bounds) as [hi |] eqn:Hhi;
    [|rewrite rec_all_states_no_bounds in Hg by auto; discriminate].
  eauto.
Qed.

(** The free grid states of a resolution: free two-coordinate states on the
    axis. *)
Lemma free_grid_states_inv grid_marks bounds free :
  free_grid_states grid_marks bounds = Some free ->
  exists lo hi,
    low0 bounds = Some lo /\ high0 bounds = Some hi
    /\ forall s, In s free ->
       is_free s bounds = Some true
       /\ exists x y, s = [x; y]
          /\ In x (linspace lo hi grid_marks) /\ In y (linspace lo hi grid_marks).
Proof.
  unfold free_grid_states. intros Hfree.
  destruct (_rec_all_states recursion_limit 0 grid_marks bounds) as [grid |] eqn:Hg;
    [|discriminate].
  cbn [bind] in Hfree.
  destruct (rec_all_states_has_bounds _ _ _ _ _ Hg) as [lo [hi [Hlo Hhi]]].
  exists lo, hi. split; [assumption|]. split; [assumption|].
  change recursion_limit with (S (S 998)) in Hg.
  rewrite (rec_all_states_0 998 grid_marks bounds lo hi Hlo Hhi) in Hg.
  injection Hg as <-.
  intros s Hs. apply (filter_free_In _ _ _ Hfree) in Hs as [Hin Hf].
  split; [assumption|].
  apply in_flat_map in Hin as [y [Hy Hin]].
  apply in_map_iff in Hin as [x [<- Hx]]. eauto.
Qed.

Lemma In_ordered_pairs grid_states s1 s2 :
  In (s1, s2) (ordered_pairs grid_states) <-> In s1 grid_states /\ In s2 grid_states.
Proof.
  unfold ordered_pairs. rewrite in_flat_map. split.
  - intros [a [Ha Hin]]. apply in_map_iff in Hin as [b [Heq Hb]].
    injection Heq as <- <-. auto.
  - intros [H1 H2]. exists s1. split; [assumption|].
    apply in_map_iff. eauto.
Qed.

(** A run that returns, returns the ordered pairs of the free grid states of
    some resolution from 11 on, at least 1000 of them. *)
Lemma get_fixed_start_goal_pairs_inv fuel bounds pairs :
  get_fixed_start_goal_pairs fuel bounds = Some pairs ->
  exists k free,
    free_grid_states (11 + k) bounds = Some free
    /\ pairs = ordered_pairs free
    /\ (1000 <= length free * length free)%nat.
Proof.
  intros Hrun. unfold get_fixed_start_goal_pairs in Hrun.
  apply pairs_loop_returns in Hrun as [k [_ [Hat Hlen]]]; [|simpl; lia].
  unfold pairs_at in Hat.
  destruct (free_grid_states (11 + k) bounds) as [free |] eqn:Hfree; [|discriminate].
  cbn [bind] in Hat. injection Hat as <-.
  rewrite length_ordered_pairs in Hlen. eauto.
Qed.

Lemma plan_pairs_run : get_fixed_start_goal_pairs 1 plan_bounds = Some plan_pairs.
Proof.
  unfold plan_pairs. destruct grid_11_free as [free [Hfree [Hlen _]]].
  now rewrite (get_fixed_start_goal_pairs_plan_bounds free 0 Hfree Hlen).
Qed.

Lemma plan_pairs_100 : nth_error plan_pairs 100 = Some pair_100.
Proof.
  unfold plan_pairs. destruct grid_11_free as [free [Hfree [Hlen Hnth]]].
  now rewrite (get_fixed_start_goal_pairs_plan_bounds free 0 Hfree Hlen).
Qed.

(** X9.  Every pair the enumeration returns is made of two free grid
    points: both states pass [is_free], have two coordinates each, and all
    four coordinates are marks of one axis
    [linspace(low[0], high[0], grid_marks)] with [grid_marks >= 11]. *)
Theorem get_fixed_start_goal_pairs_members fuel bounds pairs s1 s2 :
  get_fixed_start_goal_pairs fuel bounds = Some pairs ->
  In (s1, s2) pairs ->
  is_free s1 bounds = Some true
  /\ is_free s2 bounds = Some true
  /\ length s1 = 2%nat /\ length s2 = 2%nat
  /\ exists lo hi grid_marks,
       low0 bounds = Some lo /\ high0 bounds = Some hi /\ (11 <= grid_marks)%nat
       /\ Forall (fun c => In c (linspace lo hi grid_marks)) (s1 ++ s2).
Proof.
  intros Hrun Hin.
  destruct (get_fixed_start_goal_pairs_inv _ _ _ Hrun) as [k [free [Hfree [-> _]]]].
  apply In_ordered_pairs in Hin as [H1 H2].
  destruct (free_grid_states_inv _ _ _ Hfree) as [lo [hi [Hlo [Hhi Hmem]]]].
  destruct (Hmem s1 H1) as [Hf1 [x1 [y1 [-> [Hx1 Hy1]]]]].
  destruct (Hmem s2 H2) as [Hf2 [x2 [y2 [-> [Hx2 Hy2]]]]].
  repeat split; try assumption.
  exists lo, hi, (11 + k)%nat.
  repeat split; try assumption; try lia.
  repeat constructor; assumption.
Qed.

Lemma get_fixed_start_goal_pairs_members_witness :
  is_free (fst pair_100) plan_bounds = Some true
  /\ is_free (snd pair_100) plan_bounds = Some true
  /\ length (fst pair_100) = 2%nat /\ length (snd pair_100) = 2%nat
  /\ exists lo hi grid_marks,
       low0 plan_bounds = Some lo /\ high0 plan_bounds = Some hi
       /\ (11 <= grid_marks)%nat
       /\ Forall (fun c => In c (linspace lo hi grid_marks))
                 (fst pair_100 ++ snd pair_100).
Proof.
  apply (get_fixed_start_goal_pairs_members 1 plan_bounds plan_pairs
           (fst pair_100) (snd pair_100) plan_pairs_run).
  apply (nth_error_In plan_pairs 100). exact plan_pairs_100.
Defined.

(** X10.  The returned pairs are closed under exchanging start and goal, and
    hold the degenerate pair of every state with itself. *)
Theorem get_fixed_start_goal_pairs_symmetric fuel bounds pairs s1 s2 :
  get_fixed_start_goal_pairs fuel bounds = Some pairs ->
  In (s1, s2) pairs ->
  In (s2, s1) pairs /\ In (s1, s1) pairs /\ In (s2, s2) pairs.
Proof.
  intros Hrun Hin.
  destruct (get_fixed_start_goal_pairs_inv _ _ _ Hrun) as [k [free [_ [-> _]]]].
  apply In_ordered_pairs in Hin as [H1 H2].
  rewrite !In_ordered_pairs. auto.
Qed.

Lemma get_fixed_start_goal_pairs_symmetric_witness :
  In (snd pair_100, fst pair_100) plan_pairs
  /\ In (fst pair_100, fst pair_100) plan_pairs
  /\ In (snd pair_100, snd pair_100) plan_pairs.
Proof.
  apply (get_fixed_start_goal_pairs_symmetric 1 plan_bounds plan_pairs
           (fst pair_100) (snd pair_100) plan_pairs_run).
  apply (nth_error_In plan_pairs 100). exact plan_pairs_100.
Defined.

(** X11.  The number of returned pairs is a square [n * n] with [n >= 32]
    free grid points behind it, so at least 1024 pairs come back and the
    pair at index 100, the one [plan] picks, always exists. *)
Theorem get_fixed_start_goal_pairs_count fuel bounds pairs :
  get_fixed_start_goal_pairs fuel bounds = Some pairs ->
  (exists n, (32 <= n)%nat /\ length pairs = (n * n)%nat)
  /\ (1024 <= length pairs)%nat
  /\ exists sg, nth_error pairs 100 = Some sg.
Proof.
  intros Hrun.
  destruct (get_fixed_start_goal_pairs_inv _ _ _ Hrun) as [k [free [_ [-> Hlen]]]].
  assert (Hn : (32 <= length free)%nat) by nia.
  assert (Hl : (1024 <= length (ordered_pairs free))%nat)
    by (rewrite length_ordered_pairs; nia).
  split; [|split].
  - exists (length free). split; [assumption|]. apply length_ordered_pairs.
  - assumption.
  - destruct (nth_error (ordered_pairs free) 100) as [sg |] eqn:Hnth; [eauto|].
    apply nth_error_None in Hnth. lia.
Qed.

Lemma get_fixed_start_goal_pairs_count_witness :
  (exists n, (32 <= n)%nat /\ length plan_pairs = (n * n)%nat)
  /\ (1024 <= length plan_pairs)%nat
  /\ exists sg, nth_error plan_pairs 100 = Some sg.
Proof.
  exact (get_fixed_start_goal_pairs_count 1 plan_bounds plan_pairs plan_pairs_run).
Defined.

(** X12.  The pairs come in row order over the free grid states: with
    [free] the free states of the final resolution, the pair at index
    [i * len(free) + j] is [(free[i], free[j])]. *)
Theorem get_fixed_start_goal_pairs_index fuel bounds pairs :
  get_fixed_start_goal_pairs fuel bounds = Some pairs ->
  exists grid_marks free,
    free_grid_states grid_marks bounds = Some free
    /\ length pairs = (length free * length free)%nat
    /\ forall i j s1 s2,
       nth_error free i = Some s1 -> nth_error free j = Some s2 ->
       nth_error pairs (i * length free + j) = Some (s1, s2).
Proof.
  intros Hrun.
  destruct (get_fixed_start_goal_pairs_inv _ _ _ Hrun) as [k [free [Hfree [-> _]]]].
  exists (11 + k)%nat, free. split; [assumption|].
  split; [apply length_ordered_pairs|].
  intros i j s1 s2 H1 H2. unfold ordered_pairs.
  exact (nth_error_flat_map_map (fun a b => (a, b)) free free i j s1 s2 H1 H2).
Qed.

Lemma get_fixed_start_goal_pairs_index_witness :
  exists grid_marks free,
    free_grid_states grid_marks plan_bounds = Some free
    /\ length plan_pairs = (length free * length free)%nat
    /\ forall i j s1 s2,
       nth_error free i = Some s1 -> nth_error free j = Some s2 ->
       nth_error plan_pairs (i * length free + j) = Some (s1, s2).
Proof.
  exact (get_fixed_start_goal_pairs_index 1 plan_bounds plan_pairs plan_pairs_run).
Defined.

(** X13.  With bounds that have no dimension the enumeration raises in
    its first iteration: [bounds.low[0]] (or [bounds.high[0]]) fails inside
    [_rec_all_states], at every recursion depth, so the body of the loop
    raises at every resolution before it has produced a pair, and so
    [get_fixed_start_goal_pairs] returns for no number of iterations. *)
Theorem get_fixed_start_goal_pairs_no_dimension bounds :
  low bounds = [] \/ high bounds = [] ->
  (forall depth state_index grid_marks,
     _rec_all_states depth state_index grid_marks bounds = None)
  /\ (forall grid_marks,
      free_grid_states grid_marks bounds = None
      /\ pairs_at grid_marks bounds = None)
  /\ (forall fuel, get_fixed_start_goal_pairs fuel bounds = None).
Proof.
  intros H.
  assert (Hrec : forall depth state_index grid_marks,
             _rec_all_states depth state_index grid_marks bounds = None).
  { intros depth i n. apply rec_all_states_no_bounds.
    unfold low0, high0. destruct H as [-> | ->]; auto. }
  assert (Hfree : forall grid_marks, free_grid_states grid_marks bounds = None).
  { intros n. unfold free_grid_states. now rewrite Hrec. }
  split; [exact Hrec|]. split.
  - intros n. split; [apply Hfree|]. unfold pairs_at. now rewrite Hfree.
  - intros fuel. unfold get_fixed_start_goal_pairs.
    destruct fuel as [| fuel]; [reflexivity|].
    rewrite pairs_loop_step by (simpl; lia).
    unfold pairs_at. now rewrite Hfree.
Qed.

Lemma get_fixed_start_goal_pairs_no_dimension_witness :
  pairs_at 11 (newRealVectorBounds 0) = None
  /\ get_fixed_start_goal_pairs 5 (newRealVectorBounds 0) = None.
Proof.
  pose proof (get_fixed_start_goal_pairs_no_dimension (newRealVectorBounds 0)
                (or_introl eq_refl)) as [_ [Hbody Hrun]].
  split; [apply Hbody | apply Hrun].
Defined.

(** ** The upper boundary of the grid *)





(** ** The loop of [plan] on any enumeration *)

(** X15.  Whatever the bounds, when the enumeration returns the loop of
    [plan] does not raise and makes exactly one further call of [solve]: the
    pair at index 100 exists and is made of two free two-coordinate grid
    states, which become the start and goal with yaw 0 and tolerance 0.05,
    planner RRT, step size 0.1 and a budget of 20 seconds; the events logged
    before the loop are kept in front. *)
Theorem plan_loop_on_enumeration (solve : SimpleSetup -> float -> bool)
  bounds fuel pairs v :
  get_fixed_start_goal_pairs fuel bounds = Some pairs ->
  exists s0 s1 g0 g1 lo hi,
    nth_error pairs 100 = Some ([s0; s1], [g0; g1])
    /\ low0 bounds = Some lo /\ high0 bounds = Some hi
    /\ is_free [s0; s1] bounds = Some true
    /\ is_free [g0; g1] bounds = Some true
    /\ let start := mkSE2 s0 s1 0 in
       let goal := mkSE2 g0 g1 0 in
       let ss := mkSetup (state_bounds (var_ss v)) (control_bounds (var_ss v))
                         (Some (start, goal, 0.05)) (Some RRT) (Some 0.1) in
       plan_loop solve bounds 0 pairs v
       = Some (mkVars start goal ss
                 (events v ++ [PrintBounds lo hi; Solve ss 20]
                  ++ (if solve ss 20
                      then [PrintStartGoal start goal; PrintSolutionPath]
                      else []))).
Proof.
  intros Hrun.
  destruct (get_fixed_start_goal_pairs_inv _ _ _ Hrun) as [k [free [Hfree [-> Hlen]]]].
  destruct (nth_error (ordered_pairs free) 100) as [[s g] |] eqn:Hnth.
  - pose proof (nth_error_In _ _ Hnth) as Hin.
    apply In_ordered_pairs in Hin as [Hs Hg].
    destruct (free_grid_states_inv _ _ _ Hfree) as [lo [hi [Hlo [Hhi Hmem]]]].
    destruct (Hmem s Hs) as [Hfs [s0 [s1 [-> _]]]].
    destruct (Hmem g Hg) as [Hfg [g0 [g1 [-> _]]]].
    exists s0, s1, g0, g1, lo, hi.
    repeat (split; [assumption || reflexivity|]).
    cbv zeta. rewrite plan_loop_only_100 by lia.
    replace (100 - 0)%nat with 100%nat by reflexivity. rewrite Hnth.
    now rewrite (plan_step_100 solve bounds lo hi).
  - apply nth_error_None in Hnth. rewrite length_ordered_pairs in Hnth. nia.
Qed.

Lemma plan_loop_on_enumeration_witness :
  exists s0 s1 g0 g1 lo hi,
    nth_error plan_pairs 100 = Some ([s0; s1], [g0; g1])
    /\ low0 plan_bounds = Some lo /\ high0 plan_bounds = Some hi
    /\ is_free [s0; s1] plan_bounds = Some true
    /\ is_free [g0; g1] plan_bounds = Some true
    /\ let start := mkSE2 s0 s1 0 in
       let goal := mkSE2 g0 g1 0 in
       let ss := mkSetup (state_bounds (var_ss plan_init))
                         (control_bounds (var_ss plan_init))
                         (Some (start, goal, 0.05)) (Some RRT) (Some 0.1) in
       plan_loop always_solved plan_bounds 0 plan_pairs plan_init
       = Some (mkVars start goal ss
                 (events plan_init ++ [PrintBounds lo hi; Solve ss 20]
                  ++ (if always_solved ss 20
                      then [PrintStartGoal start goal; PrintSolutionPath]
                      else []))).
Proof.
  exact (plan_loop_on_enumeration always_solved plan_bounds 1 plan_pairs plan_init
           plan_pairs_run).
Defined.
